(** * PhoneField: the selection / search / format state of the control

  A shallow embedding of [src/components/PhoneField/PhoneField.tsx].

  The component is a React function component.  Its state lives in
  seven [useState] cells; every event handler is a closure created by
  one render, reads the values that render saw, and only queues
  updates, which React applies after the handler has returned.  The
  embedding keeps this shape: a handler is a function from the props
  and the rendered state to a list of queued [Update]s, and [commit]
  applies the queue. *)

From Stdlib Require Import ZArith Ascii.
From Stdlib Require String.
From stdpp Require Import base tactics option list strings.

Local Open Scope Z_scope.

(** ** JavaScript strings and values *)

Module JS.

(** [String.prototype.startsWith(search)] with the default position 0:
    [search] is matched unit by unit against the start of [s]. *)
Fixpoint startsWith (s search : string) {struct search} : bool :=
  match search with
  | EmptyString => true
  | String c search' =>
      match s with
      | EmptyString => false
      | String d s' => if Ascii.eqb d c then startsWith s' search' else false
      end
  end.

(** Truthiness of a [string | null] value: [null] and the empty string
    are falsy, every other string is truthy. *)
Definition truthy (v : option string) : bool :=
  match v with
  | None => false
  | Some EmptyString => false
  | Some (String _ _) => true
  end.

(** [a || b] for [a : string | null] and [b : string]. *)
Definition or (a : option string) (b : string) : string :=
  match a with
  | Some (String c a') => String c a'
  | _ => b
  end.

(** [l[i]] for a number [i] that holds an integer: [undefined] (here
    [None]) below zero and from the length on. *)
Definition index {A} (l : list A) (i : Z) : option A :=
  if i <? 0 then None else l !! Z.to_nat i.

(** [Array.prototype.findIndex]: the first position whose element
    satisfies the callback, [-1] when there is none. *)
Definition findIndex {A} (p : A → bool) (l : list A) : Z :=
  match list_find (λ x, Is_true (p x)) l with
  | Some (i, _) => Z.of_nat i
  | None => -1
  end.

(** A lower-casing of the ASCII letters only, used to run the model on
    concrete registries; the model itself is parametric in
    [toLowerCase]. *)
Definition lowerAscii (c : ascii) : ascii :=
  let n := N_of_ascii c in
  if ((65 <=? n) && (n <=? 90))%N then ascii_of_N (n + 32) else c.

Fixpoint asciiToLowerCase (s : string) : string :=
  match s with
  | EmptyString => EmptyString
  | String c s' => String (lowerAscii c) (asciiToLowerCase s')
  end.

End JS.

(** ** Data model *)

Module Country.
(** [interface Country], lines 10-23. *)
Record t := make {
  image : string;
  countryName : string;
  countryCode : string;
  areaCodes : option (list Z);
  errorMessage : option string;
  formatter : string → option string
}.
End Country.

(** [interface PhoneFieldProps], lines 25-38. *)
Record PhoneFieldProps := {
placeholder : option string;
labelName : string;
labelHidden : option bool;
optional : option bool;
errorMessage : string;
countries : list Country.t
}.

(** The [onAction] closures stored in the option lists, defunctionalised.
  Line 61 builds [() => handleSelected(index)]; lines 100-102 build
  [() => handleSelected(retrieveCountryIndex(countryName))]. *)
Inductive Action :=
| SelectAt (index : nat)
| SelectNamed (countryName : string).

(** An entry handed to [ActionList]. *)
Record Item := { content : string; onAction : Action }.

(** The seven [useState] cells, lines 48-65. *)
Record State := {
phoneNumber : string;
formattedPhoneNumber : option string;
popoverActive : bool;
selectedCountry : Z;
error : option string;
searchBarText : string;
countryOptions : list Item
}.

(** A queued call of one of the state setters.  [setPopoverActive] is the
  only one called with an updater function (line 69). *)
Inductive Update :=
| setPhoneNumber (v : string)
| setFormattedPhoneNumber (v : option string)
| setPopoverActive (f : bool → bool)
| setSelectedCountry (v : Z)
| setError (v : option string)
| setSearchBarText (v : string)
| setCountryOptions (v : list Item).

Definition apply_update (s : State) (u : Update) : State :=
match u with
| setPhoneNumber v =>
    {| phoneNumber := v;
       formattedPhoneNumber := formattedPhoneNumber s;
       popoverActive := popoverActive s;
       selectedCountry := selectedCountry s;
       error := error s;
       searchBarText := searchBarText s;
       countryOptions := countryOptions s |}
| setFormattedPhoneNumber v =>
    {| phoneNumber := phoneNumber s;
       formattedPhoneNumber := v;
       popoverActive := popoverActive s;
       selectedCountry := selectedCountry s;
       error := error s;
       searchBarText := searchBarText s;
       countryOptions := countryOptions s |}
| setPopoverActive f =>
    {| phoneNumber := phoneNumber s;
       formattedPhoneNumber := formattedPhoneNumber s;
       popoverActive := f (popoverActive s);
       selectedCountry := selectedCountry s;
       error := error s;
       searchBarText := searchBarText s;
       countryOptions := countryOptions s |}
| setSelectedCountry v =>
    {| phoneNumber := phoneNumber s;
       formattedPhoneNumber := formattedPhoneNumber s;
       popoverActive := popoverActive s;
       selectedCountry := v;
       error := error s;
       searchBarText := searchBarText s;
       countryOptions := countryOptions s |}
| setError v =>
    {| phoneNumber := phoneNumber s;
       formattedPhoneNumber := formattedPhoneNumber s;
       popoverActive := popoverActive s;
       selectedCountry := selectedCountry s;
       error := v;
       searchBarText := searchBarText s;
       countryOptions := countryOptions s |}
| setSearchBarText v =>
    {| phoneNumber := phoneNumber s;
       formattedPhoneNumber := formattedPhoneNumber s;
       popoverActive := popoverActive s;
       selectedCountry := selectedCountry s;
       error := error s;
       searchBarText := v;
       countryOptions := countryOptions s |}
| setCountryOptions v =>
    {| phoneNumber := phoneNumber s;
       formattedPhoneNumber := formattedPhoneNumber s;
       popoverActive := popoverActive s;
       selectedCountry := selectedCountry s;
       error := error s;
       searchBarText := searchBarText s;
       countryOptions := v |}
end.

(** React applies the queue of one handler in the order of the calls. *)
Definition commit (s : State) (queue : list Update) : State :=
foldl apply_update s queue.

(** ** The component *)

Section PhoneField.

(** [String.prototype.toLowerCase] is the engine's; the component is
    modelled for an arbitrary one. *)
Variable toLowerCase : string → string.

(** Line 60, built at mount and by every render. *)
Definition allCountriesContent (c : Country.t) : string :=
  Country.image c +:+ "  " +:+ Country.countryName c
    +:+ " (" +:+ Country.countryCode c +:+ ")".

(** Lines 58-63. *)
Definition allCountries (props : PhoneFieldProps) : list Item :=
  imap (λ index c,
          {| content := allCountriesContent c; onAction := SelectAt index |})
       (countries props).

(** [useState] initial values, lines 48-65. *)
Definition mount (props : PhoneFieldProps) : State :=
  {| phoneNumber := "";
     formattedPhoneNumber := None;
     popoverActive := bool_decide (1 < length (countries props))%nat;
     selectedCountry := 0;
     error := None;
     searchBarText := "";
     countryOptions := allCountries props |}.

(** Lines 68-72. *)
Definition togglePopoverActive (props : PhoneFieldProps) : list Update :=
  [ setPopoverActive negb;
    setSearchBarText "";
    setCountryOptions (allCountries props) ].

(** Lines 74-82. *)
Definition retrieveCountryIndex (props : PhoneFieldProps)
    (countryName : string) : Z :=
  JS.findIndex (λ element, String.eqb (Country.countryName element) countryName)
               (countries props).

(** Lines 84-90. *)
Definition handleSelected (props : PhoneFieldProps) (index : Z) : list Update :=
  setSelectedCountry index :: togglePopoverActive props.

(** The callback of [countries.filter], lines 95-97. *)
Definition matchesSearch (search : string) (countryObj : Country.t) : bool :=
  JS.startsWith (toLowerCase (Country.countryName countryObj))
                (toLowerCase search).

(** The callback of [.map], lines 98-103. *)
Definition searchItem (c : Country.t) : Item :=
  {| content := Country.image c +:+ " " +:+ Country.countryName c
                  +:+ " (" +:+ Country.countryCode c +:+ ")";
     onAction := SelectNamed (Country.countryName c) |}.

(** Lines 92-108. *)
Definition retrieveCountries (props : PhoneFieldProps) (search : string)
    : list Item :=
  let results :=
    map searchItem (List.filter (matchesSearch search) (countries props)) in
  results.

(** Lines 111-117. *)
Definition handleSearchBar (props : PhoneFieldProps) (country : string)
    : list Update :=
  [ setSearchBarText country;
    setCountryOptions (retrieveCountries props country) ].

(** Lines 132-133.  [r] is the state the render saw;
    [countries[selectedCountry]] is [undefined] for an index outside
    the registry, and reading [.formatter] of it throws ([None]). *)
Definition handleFormat (props : PhoneFieldProps) (r : State)
    (phoneNumber : string) : option (list Update) :=
  c ← JS.index (countries props) (selectedCountry r);
  Some [ setFormattedPhoneNumber (Country.formatter c phoneNumber) ].

(** The [onBlur] arrow of lines 143-146.  [formattedPhoneNumber] in its
    second statement is the constant of the render that created the
    arrow: the setter called by [handleFormat] does not change it. *)
Definition onBlur (props : PhoneFieldProps) (r : State)
    : option (list Update) :=
  queued ← handleFormat props r (phoneNumber r);
  Some (queued ++
        [ setError (if JS.truthy (formattedPhoneNumber r)
                    then None else Some (errorMessage props)) ]).

(** Running a stored [onAction] closure. *)
Definition runAction (props : PhoneFieldProps) (a : Action) : list Update :=
  match a with
  | SelectAt index => handleSelected props (Z.of_nat index)
  | SelectNamed countryName =>
      handleSelected props (retrieveCountryIndex props countryName)
  end.

(** What one render hands to its children, lines 119-171. *)
Record View := {
  label : string;
  value : string;
  buttonChildren : string;
  buttonOnClick : bool;
  active : bool;
  searchValue : string;
  items : list Item;
  errorText : option string
}.

(** Line 119 and both branches of lines 122-129 read
    [countries[selectedCountry]]: the render throws ([None]) when the
    index is outside the registry. *)
Definition render (props : PhoneFieldProps) (s : State) : option View :=
  c ← JS.index (countries props) (selectedCountry s);
  let buttonContent :=
    Country.countryName c +:+ " (" +:+ Country.countryCode c +:+ ")" in
  let several := bool_decide (1 < length (countries props))%nat in
  Some {| label := match optional props with
                   | Some true => labelName props +:+ " (optional)"
                   | _ => labelName props
                   end;
          value := JS.or (formattedPhoneNumber s) (phoneNumber s);
          buttonChildren :=
            if several then buttonContent else Country.countryName c;
          buttonOnClick := several;
          active := popoverActive s;
          searchValue := searchBarText s;
          items := countryOptions s;
          errorText := error s |}.

(** The events the rendered tree can deliver. *)
Inductive Event :=
| PhoneChange (v : string)
| PhoneBlur
| ActivatorClick
| PopoverClose
| SearchChange (v : string)
| ItemAction (k : nat).

(** Modelled from the spec: the [TextField], [Button], [Popover] and
    [ActionList] components are imported and not among the sources.
    Following section 6, a text field reports its changes and its
    blur, a button without [onClick] reports nothing, the popover
    renders its children (the search box and the list) only while
    [active], and an action list runs the [onAction] of the entry that
    is activated.  The close request of the popover is taken whenever
    the host sends it: nothing in section 6 ties it to the [active]
    flag, and line 152 wires it to the toggle without a condition.
    The handler attached to each event is the one of the JSX, lines
    135-171; [None] when the view offers no such event or the handler
    throws. *)
Definition handler (props : PhoneFieldProps) (r : State) (ev : Event)
    : option (list Update) :=
  v ← render props r;
  match ev with
  | PhoneChange x => Some [ setPhoneNumber x ]
  | PhoneBlur => onBlur props r
  | ActivatorClick =>
      if buttonOnClick v then Some (togglePopoverActive props) else None
  | PopoverClose => Some (togglePopoverActive props)
  | SearchChange x =>
      if active v then Some (handleSearchBar props x) else None
  | ItemAction k =>
      if active v
      then it ← items v !! k; Some (runAction props (onAction it))
      else None
  end.

(** One event: the handler of the current render runs, then its queue
    is applied and the component renders again. *)
Definition step (props : PhoneFieldProps) (s : State) (ev : Event)
    : option State :=
  queue ← handler props s ev;
  Some (commit s queue).

Fixpoint run (props : PhoneFieldProps) (s : State) (evs : list Event)
    : option State :=
  match evs with
  | [] => Some s
  | ev :: evs' => s' ← step props s ev; run props s' evs'
  end.

(** The name of the country an entry stands for: the one its closure
    captured, or the one at the captured position. *)
Definition candidateName (props : PhoneFieldProps) (it : Item)
    : option string :=
  match onAction it with
  | SelectNamed countryName => Some countryName
  | SelectAt index => Country.countryName <$> countries props !! index
  end.

(** The option lists the handlers ever store: the full list of
[allCountries], or the result of one search. *)
Definition options_from_registry (props : PhoneFieldProps) (s : State) : Prop :=
  countryOptions s = allCountries props
  ∨ ∃ search, countryOptions s = retrieveCountries props search.

End PhoneField.

(** ** The search rule in the words of the specification *)

(** [name], compared case-insensitively, starts with [query]: after
  lower-casing both, [query] is an initial segment of [name]. *)
Definition ci_starts_with (toLowerCase : string → string)
  (name query : string) : Prop :=
∃ rest, toLowerCase name = toLowerCase query +:+ rest.

(** ** Registries used to run the model *)

Module Sample.

(** Scenario D: ten characters format, anything else is rejected. *)
Definition tenDigits (x : string) : option string :=
  if (String.length x =? 10)%nat then Some "(xxx) xxx-xxxx" else None.

Definition canada : Country.t :=
  Country.make "CA" "Canada" "+1" None None tenDigits.
Definition cameroon : Country.t :=
  Country.make "CM" "Cameroon" "+237" None None tenDigits.
Definition usa : Country.t :=
  Country.make "US" "USA" "+1" None None tenDigits.
(** A country whose formatter answers with the empty string. *)
Definition blank : Country.t :=
  Country.make "ZZ" "Blank" "+0" None None (λ _, Some "").

Definition props (registry : list Country.t) : PhoneFieldProps :=
  {| placeholder := None;
     labelName := "Phone";
     labelHidden := None;
     optional := None;
     errorMessage := "Invalid phone number";
     countries := registry |}.

Definition two : PhoneFieldProps := props [canada; cameroon].
Definition one : PhoneFieldProps := props [usa].
Definition blankOnly : PhoneFieldProps := props [blank].

Definition lower : string → string := JS.asciiToLowerCase.

End Sample.


(** ** Facts about the JavaScript primitives *)

Module JSFacts.

Lemma startsWith_spec (s search : string) :
  JS.startsWith s search = true ↔ ∃ rest, s = search +:+ rest.
Proof.
  revert s. induction search as [|c search IH]; intros s; simpl.
  - split; [intros _; by exists s | done].
  - destruct s as [|d s]; simpl.
    + split; [done | intros [rest Hrest]; discriminate].
    + destruct (Ascii.eqb_spec d c) as [->|Hne].
      * rewrite IH. split; intros [rest Hrest]; exists rest.
        -- by rewrite Hrest.
        -- by injection Hrest.
      * split; [done | intros [rest Hrest]; by injection Hrest].
Qed.

Lemma startsWith_empty (s : string) : JS.startsWith s "" = true.
Proof. done. Qed.

Lemma index_of_nat {A} (l : list A) (i : nat) :
  JS.index l (Z.of_nat i) = l !! i.
Proof.
  unfold JS.index. destruct (Z.ltb_spec (Z.of_nat i) 0); [lia|].
  by rewrite Nat2Z.id.
Qed.

Lemma index_negative {A} (l : list A) (i : Z) : i < 0 → JS.index l i = None.
Proof. intros Hi. unfold JS.index. by destruct (Z.ltb_spec i 0); [|lia]. Qed.

Lemma index_Some {A} (l : list A) (i : Z) (x : A) :
  JS.index l i = Some x ↔ 0 ≤ i ∧ l !! Z.to_nat i = Some x.
Proof.
  unfold JS.index. destruct (Z.ltb_spec i 0); split; try done.
  - intros [? _]; lia.
  - by intros [_ ?].
Qed.

(** [findIndex] answers [-1] exactly when no element passes. *)
Lemma findIndex_none {A} (p : A → bool) (l : list A) :
  (∀ x, x ∈ l → p x = false) → JS.findIndex p l = -1.
Proof.
  intros Hnone. unfold JS.findIndex.
  destruct (list_find _ l) as [[i x]|] eqn:Hfind; [|done].
  apply list_find_Some in Hfind as (Hi & Hp & _).
  apply list_elem_of_lookup_2 in Hi. rewrite (Hnone x Hi) in Hp. done.
Qed.

(** Otherwise it answers the first position that passes. *)
Lemma findIndex_first {A} (p : A → bool) (l : list A) (x : A) :
  x ∈ l → p x = true →
  ∃ i y, JS.findIndex p l = Z.of_nat i ∧ l !! i = Some y ∧ p y = true ∧
         ∀ j z, l !! j = Some z → (j < i)%nat → p z = false.
Proof.
  intros Hx Hp. unfold JS.findIndex.
  destruct (list_find _ l) as [[i y]|] eqn:Hfind.
  - apply list_find_Some in Hfind as (Hi & Hy & Hbefore).
    exists i, y. split_and!; [done|done|by apply Is_true_true|].
    intros j z Hj Hlt. specialize (Hbefore j z Hj Hlt).
    by destruct (p z); [destruct Hbefore|].
  - apply list_find_None in Hfind. rewrite Forall_forall in Hfind.
    destruct (Hfind x Hx). by apply Is_true_true.
Qed.

Lemma truthy_or (a : option string) (b : string) :
  JS.or a b = if JS.truthy a then default b a else b.
Proof. by destruct a as [[|c a]|]. Qed.

End JSFacts.

(** ** The search filter *)

Section SearchFilter.

Variable toLowerCase : string → string.

#[local] Instance ci_starts_with_dec name query :
  Decision (ci_starts_with toLowerCase name query).
Proof.
  refine (cast_if (decide (JS.startsWith (toLowerCase name)
                                         (toLowerCase query) = true)));
    unfold ci_starts_with; by rewrite <- JSFacts.startsWith_spec.
Defined.

Lemma matchesSearch_spec (search : string) (c : Country.t) :
  matchesSearch toLowerCase search c = true
  ↔ ci_starts_with toLowerCase (Country.countryName c) search.
Proof. unfold matchesSearch, ci_starts_with. apply JSFacts.startsWith_spec. Qed.

(** The boolean [Array.prototype.filter] of the source keeps the same
    elements as the filter by the specification's matching rule. *)
Lemma filter_matchesSearch (search : string) (l : list Country.t) :
  List.filter (matchesSearch toLowerCase search) l
  = filter (λ c, ci_starts_with toLowerCase (Country.countryName c) search) l.
Proof.
  induction l as [|c l IH]; [done|]. simpl. rewrite filter_cons, IH.
  destruct (matchesSearch toLowerCase search c) eqn:Hm; case_decide as Hd; try done.
  - destruct Hd. by apply matchesSearch_spec.
  - apply matchesSearch_spec in Hd. congruence.
Qed.

Lemma retrieveCountries_filter (props : PhoneFieldProps) (search : string) :
  retrieveCountries toLowerCase props search
  = searchItem <$>
      filter (λ c, ci_starts_with toLowerCase (Country.countryName c) search)
             (countries props).
Proof. unfold retrieveCountries. by rewrite filter_matchesSearch. Qed.

Lemma candidateName_searchItem (props : PhoneFieldProps) (c : Country.t) :
  candidateName props (searchItem c) = Some (Country.countryName c).
Proof. done. Qed.

(** C4.  For every registry and query [q], [retrieveCountries] (the
    specification's [filter(registry, q)]) returns one candidate for each
    country whose [countryName], lower-cased, starts with the lower-cased
    [q], and for no other: the countries behind the candidates are
    exactly the registry filtered by that prefix rule, each candidate
    carries the name of its country, and the countries appear in the
    registry's relative order (they form a sublist of it). *)
Theorem C4_retrieveCountries_prefix_filter (props : PhoneFieldProps) (q : string) :
  ∃ matched : list Country.t,
    retrieveCountries toLowerCase props q = searchItem <$> matched
    ∧ candidateName props <$> retrieveCountries toLowerCase props q
      = (Some ∘ Country.countryName) <$> matched
    ∧ matched
      = filter (λ c, ci_starts_with toLowerCase (Country.countryName c) q)
               (countries props)
    ∧ matched `sublist_of` countries props
    ∧ ∀ c, c ∈ matched
           ↔ c ∈ countries props
             ∧ ci_starts_with toLowerCase (Country.countryName c) q.
Proof.
  eexists. split; [apply retrieveCountries_filter|].
  split_and!.
  - rewrite retrieveCountries_filter, <- list_fmap_compose.
    by apply list_fmap_ext.
  - done.
  - apply sublist_filter.
  - intros c. rewrite list_elem_of_filter. tauto.
Qed.

(** C5.  With the empty query, [retrieveCountries] returns one candidate
    per country of the registry, in the registry's order and number.
    The lower-casing only has to leave the empty string empty. *)
Theorem C5_empty_query_is_identity (props : PhoneFieldProps) :
  toLowerCase "" = "" →
  retrieveCountries toLowerCase props "" = searchItem <$> countries props
  ∧ length (retrieveCountries toLowerCase props "") = length (countries props)
  ∧ candidateName props <$> retrieveCountries toLowerCase props ""
    = (Some ∘ Country.countryName) <$> countries props.
Proof.
  intros Hempty.
  assert (retrieveCountries toLowerCase props "" = searchItem <$> countries props)
    as Hall.
  { unfold retrieveCountries. f_equal.
    induction (countries props) as [|c l IH]; [done|]. simpl.
    unfold matchesSearch at 1. rewrite Hempty, JSFacts.startsWith_empty.
    by rewrite IH. }
  rewrite Hall. split_and!; [done|by rewrite length_fmap|].
  rewrite <- list_fmap_compose. by apply list_fmap_ext.
Qed.

End SearchFilter.

(** ** The queues of the handlers, applied *)

Section Queues.


Lemma commit_handleSelected (props : PhoneFieldProps) (index : Z) (s : State) :
  commit s (handleSelected props index)
  = {| phoneNumber := phoneNumber s;
       formattedPhoneNumber := formattedPhoneNumber s;
       popoverActive := negb (popoverActive s);
       selectedCountry := index;
       error := error s;
       searchBarText := "";
       countryOptions := allCountries props |}.
Proof. done. Qed.

(** The blur handler: the new display value is the formatter's answer
    on the text typed so far, and the error is decided by the display
    value the render held, not by that answer. *)
Lemma commit_onBlur (props : PhoneFieldProps) (s : State) (c : Country.t) :
  JS.index (countries props) (selectedCountry s) = Some c →
  commit s <$> onBlur props s
  = Some {| phoneNumber := phoneNumber s;
            formattedPhoneNumber := Country.formatter c (phoneNumber s);
            popoverActive := popoverActive s;
            selectedCountry := selectedCountry s;
            error := if JS.truthy (formattedPhoneNumber s)
                     then None else Some (errorMessage props);
            searchBarText := searchBarText s;
            countryOptions := countryOptions s |}.
Proof. intros Hc. unfold onBlur, handleFormat. rewrite Hc. done. Qed.

(** Selecting by a name of the registry stores the first position that
    carries the name. *)
Lemma retrieveCountryIndex_present (props : PhoneFieldProps) (c : Country.t) :
  c ∈ countries props →
  ∃ i c', retrieveCountryIndex props (Country.countryName c) = Z.of_nat i
          ∧ countries props !! i = Some c'
          ∧ Country.countryName c' = Country.countryName c.
Proof.
  intros Hc. unfold retrieveCountryIndex.
  destruct (JSFacts.findIndex_first
              (λ element, String.eqb (Country.countryName element)
                                     (Country.countryName c))
              (countries props) c Hc) as (i & c' & Hi & Hc' & Heq & _).
  { apply String.eqb_refl. }
  exists i, c'. split_and!; [done|done|by apply String.eqb_eq].
Qed.

Lemma retrieveCountryIndex_absent (props : PhoneFieldProps) (name : string) :
  name ∉ (Country.countryName <$> countries props) →
  retrieveCountryIndex props name = -1.
Proof.
  intros Habsent. apply JSFacts.findIndex_none. intros c Hc.
  apply String.eqb_neq. intros Heq. apply Habsent.
  rewrite <- Heq. by apply list_elem_of_fmap_2.
Qed.

Lemma unique_name_position (props : PhoneFieldProps) (i j : nat) (c c' : Country.t) :
  NoDup (Country.countryName <$> countries props) →
  countries props !! i = Some c → countries props !! j = Some c' →
  Country.countryName c' = Country.countryName c → j = i.
Proof.
  intros Hnodup Hi Hj Heq.
  apply (NoDup_lookup _ j i (Country.countryName c) Hnodup);
    rewrite list_lookup_fmap; [rewrite Hj | rewrite Hi]; simpl; congruence.
Qed.

End Queues.

(** ** The transitions *)

Section Transitions.

Variable toLowerCase : string → string.

Lemma render_Some (props : PhoneFieldProps) (s : State) (v : View) :
  render props s = Some v →
  (∃ c, JS.index (countries props) (selectedCountry s) = Some c)
  ∧ value v = JS.or (formattedPhoneNumber s) (phoneNumber s)
  ∧ buttonOnClick v = bool_decide (1 < length (countries props))%nat
  ∧ active v = popoverActive s
  ∧ items v = countryOptions s
  ∧ errorText v = error s.
Proof.
  unfold render. destruct (JS.index _ _) as [c|]; [|done].
  intros [= <-]. eauto 10.
Qed.

(** Case analysis of one step: which queue was applied. *)
Lemma step_Some (props : PhoneFieldProps) (s s' : State) (ev : Event) :
  step toLowerCase props s ev = Some s' →
  match ev with
  | PhoneChange x => s' = commit s [setPhoneNumber x]
  | PhoneBlur =>
      ∃ c, JS.index (countries props) (selectedCountry s) = Some c
           ∧ s' = commit s
                    [ setFormattedPhoneNumber
                        (Country.formatter c (phoneNumber s));
                      setError (if JS.truthy (formattedPhoneNumber s)
                                then None else Some (errorMessage props)) ]
  | ActivatorClick =>
      (1 < length (countries props))%nat
      ∧ s' = commit s (togglePopoverActive props)
  | PopoverClose => s' = commit s (togglePopoverActive props)
  | SearchChange x =>
      popoverActive s = true
      ∧ s' = commit s (handleSearchBar toLowerCase props x)
  | ItemAction k =>
      popoverActive s = true
      ∧ ∃ it, countryOptions s !! k = Some it
              ∧ s' = commit s (runAction props (onAction it))
  end.
Proof.
  unfold step, handler.
  destruct (render props s) as [v|] eqn:Hrender; [|done].
  apply render_Some in Hrender as ([c Hc] & _ & Hclick & Hactive & Hitems & _).
  destruct ev; simpl; rewrite ?Hclick, ?Hactive, ?Hitems.
  - by intros [= <-].
  - unfold onBlur, handleFormat. rewrite Hc. simpl.
    intros [= <-]. by exists c.
  - case_bool_decide; simpl; [|done].
    intros [= <-]. split; [assumption|reflexivity].
  - by intros [= <-].
  - destruct (popoverActive s) eqn:Hopen; simpl; [|done].
    intros [= <-]. split; [reflexivity|]. by rewrite Hopen.
  - destruct (popoverActive s) eqn:Hopen; simpl; [|done].
    destruct (countryOptions s !! k) as [it|]; simpl; [|done].
    intros [= <-]. split; [reflexivity|]. exists it.
    split; [reflexivity|]. destruct (onAction it); simpl; by rewrite Hopen.
Qed.

Lemma run_invariant (props : PhoneFieldProps) (Inv : State → Prop) :
  (∀ s ev s', Inv s → step toLowerCase props s ev = Some s' → Inv s') →
  ∀ evs s s', Inv s → run toLowerCase props s evs = Some s' → Inv s'.
Proof.
  intros Hstep. induction evs as [|ev evs IH]; intros s s' Hs; simpl.
  - by intros [= <-].
  - destruct (step toLowerCase props s ev) as [s1|] eqn:H1; [|done]. simpl.
    apply IH. by eapply Hstep.
Qed.

Lemma step_options_from_registry (props : PhoneFieldProps) (s s' : State) (ev : Event) :
  options_from_registry toLowerCase props s → step toLowerCase props s ev = Some s' →
  options_from_registry toLowerCase props s'.
Proof.
  intros Hs Hstep. apply step_Some in Hstep. destruct ev.
  - subst. exact Hs.
  - destruct Hstep as (c & _ & ->). exact Hs.
  - destruct Hstep as [_ ->]. by left.
  - subst. by left.
  - destruct Hstep as [_ ->]. right. by eexists.
  - destruct Hstep as (_ & it & _ & ->). left. by destruct (onAction it).
Qed.

Lemma run_options_from_registry (props : PhoneFieldProps) (evs : list Event) (s : State) :
  run toLowerCase props (mount props) evs = Some s → options_from_registry toLowerCase props s.
Proof.
  apply (run_invariant props (options_from_registry toLowerCase props)).
  - intros s0 ev s1 H0 H1.
    exact (step_options_from_registry props s0 s1 ev H0 H1).
  - by left.
Qed.


(** The list on display belongs to the search text on display. *)
Lemma run_list_matches_search (props : PhoneFieldProps) (evs : list Event) (s : State) :
  run toLowerCase props (mount props) evs = Some s →
  countryOptions s = allCountries props
  ∨ countryOptions s = retrieveCountries toLowerCase props (searchBarText s).
Proof.
  apply (run_invariant props
           (λ s, countryOptions s = allCountries props
                 ∨ countryOptions s
                   = retrieveCountries toLowerCase props (searchBarText s))).
  - intros s0 ev s1 Hinv Hstep. apply step_Some in Hstep. destruct ev.
    + subst. exact Hinv.
    + destruct Hstep as (c & _ & ->). exact Hinv.
    + destruct Hstep as [_ ->]. by left.
    + subst. by left.
    + destruct Hstep as [_ ->]. by right.
    + destruct Hstep as (_ & it & _ & ->). left. by destruct (onAction it).
  - by left.
Qed.

(** The entry at position [k] of the list on display, the country it
    was built from, and what its activation stores.  With the full
    list the country is the one at position [k] of the registry; with
    a search result it is the one at position [k] of the filtered
    registry.  Names being unique, the stored position is the position
    of that very country in the registry. *)
Lemma entry_country (props : PhoneFieldProps) (evs : list Event) (s : State)
    (k : nat) (it : Item) :
  NoDup (Country.countryName <$> countries props) →
  run toLowerCase props (mount props) evs = Some s →
  countryOptions s !! k = Some it →
  ∃ (c : Country.t) (i : nat),
    ((countryOptions s = allCountries props
      ∧ countries props !! k = Some c
      ∧ content it = allCountriesContent c)
     ∨ (countryOptions s = retrieveCountries toLowerCase props (searchBarText s)
        ∧ List.filter (matchesSearch toLowerCase (searchBarText s))
                      (countries props) !! k = Some c
        ∧ content it = content (searchItem c)))
    ∧ candidateName props it = Some (Country.countryName c)
    ∧ countries props !! i = Some c
    ∧ ∀ s0, selectedCountry (commit s0 (runAction props (onAction it)))
            = Z.of_nat i.
Proof.
  intros Hnodup Hrun Hk.
  destruct (run_list_matches_search props evs s Hrun) as [Hall|Hsearch].
  - pose proof Hk as Hk'. rewrite Hall in Hk'. unfold allCountries in Hk'.
    apply list_lookup_imap_Some in Hk' as (c & Hc & ->).
    exists c, k. split_and!; [by left| |done|done].
    unfold candidateName. simpl. by rewrite Hc.
  - pose proof Hk as Hk'. rewrite Hsearch in Hk'. unfold retrieveCountries in Hk'.
    apply list_lookup_fmap_Some in Hk' as (c & -> & Hc).
    assert (c ∈ countries props) as Hin.
    { apply list_elem_of_lookup_2 in Hc.
      rewrite filter_matchesSearch in Hc.
      by apply list_elem_of_filter in Hc as [_ ?]. }
    pose proof Hin as Hpos. apply list_elem_of_lookup in Hpos as [j Hj].
    destruct (retrieveCountryIndex_present props c Hin)
      as (i & c' & Hi & Hc' & Heq).
    assert (i = j) as -> by (by eapply unique_name_position).
    assert (c' = c) as -> by congruence.
    exists c, j. split_and!; [by right|done|done|].
    intros s0. simpl. done.
Qed.

(** Typing [x] and leaving the field, from any state that renders: the
    display value is the formatter's answer on [x]; the error is decided
    by the display value held before. *)
Lemma type_then_blur (props : PhoneFieldProps) (s : State) (c : Country.t) (x : string) :
  JS.index (countries props) (selectedCountry s) = Some c →
  ∃ s', run toLowerCase props s [PhoneChange x; PhoneBlur] = Some s'
        ∧ phoneNumber s' = x
        ∧ formattedPhoneNumber s' = Country.formatter c x
        ∧ error s' = if JS.truthy (formattedPhoneNumber s)
                     then None else Some (errorMessage props).
Proof.
  intros Hc. simpl. unfold step, handler, render. rewrite Hc. simpl.
  unfold render. simpl. rewrite Hc. simpl.
  unfold onBlur, handleFormat. simpl. rewrite Hc. simpl. eauto.
Qed.

(** The handler behind every entry is a toggle: run on a closed popover
    it would open it.  The view only offers the entries while the
    popover is active. *)
Remark runAction_toggles (props : PhoneFieldProps) (s : State) (a : Action) :
  popoverActive (commit s (runAction props a)) = negb (popoverActive s).
Proof. by destruct a. Qed.

(** C6.  In every state reached from the mount, names being unique,
    the entry at position [k] of the list on display stands for one
    country [c]: the country at position [k] of the registry when the
    full list is on display, the country at position [k] of the
    filtered registry when a search result is.  The entry shows the
    label of [c] and carries its name.  Activating it stores in
    [selectedCountry] the position [i] of [c] in the registry, the
    only position with that name, and not [k]; the entry is offered
    with the popover active, and the popover is closed afterwards. *)
Theorem C6_select_sets_registry_index
    (props : PhoneFieldProps) (evs : list Event) (s s' : State) (k : nat) :
  NoDup (Country.countryName <$> countries props) →
  run toLowerCase props (mount props) evs = Some s →
  step toLowerCase props s (ItemAction k) = Some s' →
  ∃ (it : Item) (c : Country.t) (i : nat),
    countryOptions s !! k = Some it
    ∧ ((countryOptions s = allCountries props
        ∧ countries props !! k = Some c
        ∧ content it = allCountriesContent c)
       ∨ (countryOptions s
          = retrieveCountries toLowerCase props (searchBarText s)
          ∧ List.filter (matchesSearch toLowerCase (searchBarText s))
                        (countries props) !! k = Some c
          ∧ content it = content (searchItem c)))
    ∧ candidateName props it = Some (Country.countryName c)
    ∧ countries props !! i = Some c
    ∧ (∀ j c', countries props !! j = Some c' →
               Country.countryName c' = Country.countryName c → j = i)
    ∧ selectedCountry s' = Z.of_nat i
    ∧ popoverActive s = true
    ∧ popoverActive s' = false.
Proof.
  intros Hnodup Hrun Hstep.
  apply step_Some in Hstep as (Hopen & it & Hk & ->).
  destruct (entry_country props evs s k it Hnodup Hrun Hk)
    as (c & i & Hshown & Hname & Hi & Hsel).
  exists it, c, i. split_and!; [done|done|done|done| |done|done|].
  - intros j c' Hj Heq. by eapply unique_name_position.
  - by rewrite runAction_toggles, Hopen.
Qed.


(** C9, as the code has it.  The rendered phone value is
    [formattedPhoneNumber] when that is a non-empty string, and
    [phoneNumber] when it is [null] or the empty string. *)
Theorem C9_displayed_value (props : PhoneFieldProps) (s : State) (v : View) :
  render props s = Some v →
  value v = match formattedPhoneNumber s with
            | Some formatted =>
                if bool_decide (formatted = "") then phoneNumber s else formatted
            | None => phoneNumber s
            end.
Proof.
  intros Hrender. apply render_Some in Hrender as (_ & -> & _).
  by destruct (formattedPhoneNumber s) as [[|c formatted]|].
Qed.


End Transitions.

(** ** The model run on concrete registries *)

Section Scenarios.

Import Sample.

(** Scenario A: both names start with "Ca". *)
Example search_Ca :
  candidateName two <$> retrieveCountries lower two "Ca"
  = [Some "Canada"; Some "Cameroon"].
Proof. reflexivity. Qed.

(** Scenario B. *)
Example search_Cam :
  candidateName two <$> retrieveCountries lower two "Cam"
  = [Some "Cameroon"].
Proof. reflexivity. Qed.

(** The comparison ignores case on both sides. *)
Example search_mixed_case :
  candidateName two <$> retrieveCountries lower two "cAN" = [Some "Canada"].
Proof. reflexivity. Qed.

(** "ana" occurs inside "Canada" but does not start it. *)
Example search_inner_substring : retrieveCountries lower two "ana" = [].
Proof. reflexivity. Qed.

(** Scenario C: one country, no click handler on the button, and the
    bare name as its text. *)
Example single_country_view :
  (λ v, (buttonChildren v, buttonOnClick v, active v)) <$> render one (mount one)
  = Some ("USA", false, false).
Proof. reflexivity. Qed.

Example two_countries_button :
  buttonChildren <$> render two (mount two) = Some "Canada (+1)".
Proof. reflexivity. Qed.

(** After the search "Cam" the first entry selects registry position 1. *)
Example select_after_search :
  selectedCountry <$> run lower two (mount two) [SearchChange "Cam"; ItemAction 0%nat]
  = Some 1.
Proof. reflexivity. Qed.

(** Scenario D. *)
Example scenario_D_display :
  formattedPhoneNumber <$> run lower two (mount two) [PhoneChange "5551234567"; PhoneBlur]
  = Some (Some "(xxx) xxx-xxxx")
  ∧ formattedPhoneNumber <$> run lower two (mount two) [PhoneChange "555"; PhoneBlur]
    = Some None
  ∧ error <$> run lower two (mount two) [PhoneChange "555"; PhoneBlur]
    = Some (Some "Invalid phone number").
Proof. by split_and!. Qed.

(** A second blur on the same text clears the error the first one set. *)
Example second_blur_clears_error :
  error <$> run lower two (mount two) [PhoneChange "5551234567"; PhoneBlur; PhoneBlur]
  = Some None.
Proof. reflexivity. Qed.

End Scenarios.

(** C1, at the first commit.  Canada is active and its formatter
    accepts "5551234567"; typing that text into the freshly mounted
    control and leaving the field stores the formatted text, and stores
    the configured error text too, where the specification has [null]:
    the handler decides the error from the display value of the render
    that created it, which is still [null]. *)
Theorem C1_first_successful_commit_sets_error :
  Country.formatter Sample.canada "5551234567" = Some "(xxx) xxx-xxxx"
  ∧ ∃ s', run Sample.lower Sample.two (mount Sample.two)
              [PhoneChange "5551234567"; PhoneBlur] = Some s'
          ∧ JS.index (countries Sample.two) (selectedCountry s')
            = Some Sample.canada
          ∧ formattedPhoneNumber s' = Some "(xxx) xxx-xxxx"
          ∧ error s' = Some (errorMessage Sample.two).
Proof. split; [reflexivity|]. eexists. split; [reflexivity|]. by split_and!. Qed.

(** C2, after an earlier success.  Canada's formatter rejects "555";
    once "5551234567" has been committed, typing "555" and leaving the
    field clears the display value and leaves the error [null], where
    the specification has the configured error text. *)
Theorem C2_failed_commit_after_success_has_no_error :
  Country.formatter Sample.canada "555" = None
  ∧ ∃ s', run Sample.lower Sample.two (mount Sample.two)
              [PhoneChange "5551234567"; PhoneBlur;
               PhoneChange "555"; PhoneBlur] = Some s'
          ∧ JS.index (countries Sample.two) (selectedCountry s')
            = Some Sample.canada
          ∧ formattedPhoneNumber s' = None
          ∧ error s' = None.
Proof. split; [reflexivity|]. eexists. split; [reflexivity|]. by split_and!. Qed.

(** C3, at the first commit of the single-country control.  After a
    successful formatting attempt the display value and the error are
    both set, where the specification has them mutually exclusive. *)
Theorem C3_display_and_error_both_set :
  ∃ s', run Sample.lower Sample.one (mount Sample.one)
            [PhoneChange "5551234567"; PhoneBlur] = Some s'
        ∧ is_Some (formattedPhoneNumber s')
        ∧ is_Some (error s').
Proof. eexists. split; [reflexivity|]. split; by eexists. Qed.

(** C5 on Canada and Cameroon with the ASCII lower-casing. *)
Lemma C5_witness :
  retrieveCountries Sample.lower Sample.two ""
  = searchItem <$> countries Sample.two
  ∧ length (retrieveCountries Sample.lower Sample.two "")
    = length (countries Sample.two)
  ∧ candidateName Sample.two <$> retrieveCountries Sample.lower Sample.two ""
    = (Some ∘ Country.countryName) <$> countries Sample.two.
Proof.
  apply (C5_empty_query_is_identity Sample.lower Sample.two). reflexivity.
Defined.

(** C6 after the search "Cam": the only entry, at position 0 of the
    option list, stands for Cameroon and selects position 1 of the
    registry. *)
Lemma C6_witness :
  let s := commit (mount Sample.two)
                  (handleSearchBar Sample.lower Sample.two "Cam") in
  let s' := commit s (runAction Sample.two (SelectNamed "Cameroon")) in
  ∃ (it : Item) (c : Country.t) (i : nat),
    countryOptions s !! 0%nat = Some it
    ∧ ((countryOptions s = allCountries Sample.two
        ∧ countries Sample.two !! 0%nat = Some c
        ∧ content it = allCountriesContent c)
       ∨ (countryOptions s
          = retrieveCountries Sample.lower Sample.two (searchBarText s)
          ∧ List.filter (matchesSearch Sample.lower (searchBarText s))
                        (countries Sample.two) !! 0%nat = Some c
          ∧ content it = content (searchItem c)))
    ∧ candidateName Sample.two it = Some (Country.countryName c)
    ∧ countries Sample.two !! i = Some c
    ∧ (∀ j c', countries Sample.two !! j = Some c' →
               Country.countryName c' = Country.countryName c → j = i)
    ∧ selectedCountry s' = Z.of_nat i
    ∧ popoverActive s = true
    ∧ popoverActive s' = false.
Proof.
  intros s s'.
  apply (C6_select_sets_registry_index Sample.lower Sample.two
           [SearchChange "Cam"] s s' 0%nat).
  - apply (bool_decide_unpack _). vm_compute. exact I.
  - reflexivity.
  - reflexivity.
Defined.



(** C9 as specified does not hold: a formatter that answers the empty string
    leaves [formattedPhoneNumber] non-null and empty, and the field
    then shows the raw text "555". *)
Lemma C9_counterexample :
  ∃ s v, run Sample.lower Sample.blankOnly (mount Sample.blankOnly)
             [PhoneChange "555"; PhoneBlur] = Some s
         ∧ render Sample.blankOnly s = Some v
         ∧ formattedPhoneNumber s = Some ""
         ∧ phoneNumber s = "555"
         ∧ value v = "555"
         ∧ Some (value v) ≠ formattedPhoneNumber s.
Proof.
  eexists. eexists. split; [reflexivity|]. split; [reflexivity|].
  by split_and!.
Qed.

(** C9, as the code has it, for a non-empty display value. *)
Lemma C9_witness :
  let s := commit (mount Sample.two)
                  [ setPhoneNumber "5551234567";
                    setFormattedPhoneNumber (Some "(xxx) xxx-xxxx") ] in
  ∃ v, render Sample.two s = Some v ∧ value v = "(xxx) xxx-xxxx".
Proof.
  intros s. eexists. split; [reflexivity|].
  apply (C9_displayed_value Sample.two s). reflexivity.
Defined.



(** ** Further properties of the lookup and of the search *)

Module StringFacts.

Lemma append_cons (x : ascii) (a b : string) :
  String x a +:+ b = String x (a +:+ b).
Proof. reflexivity. Qed.

Lemma append_nil_r (s : string) : s +:+ "" = s.
Proof.
  induction s as [|c s IH]; [done|]. by rewrite append_cons, IH.
Qed.

Lemma append_assoc (a b c : string) : (a +:+ b) +:+ c = a +:+ (b +:+ c).
Proof.
  induction a as [|x a IH]; [done|]. by rewrite !append_cons, IH.
Qed.

Lemma append_length (a b : string) :
  String.length (a +:+ b) = (String.length a + String.length b)%nat.
Proof.
  induction a as [|x a IH]; [done|]. rewrite append_cons. simpl. by rewrite IH.
Qed.

Lemma asciiToLowerCase_append (a b : string) :
  JS.asciiToLowerCase (a +:+ b)
  = JS.asciiToLowerCase a +:+ JS.asciiToLowerCase b.
Proof.
  induction a as [|x a IH]; [done|].
  rewrite append_cons. simpl. by rewrite append_cons, IH.
Qed.

End StringFacts.

Section Lookup.

Implicit Types (props : PhoneFieldProps) (c : Country.t).

(** [retrieveCountryIndex] answers the least position that carries the
    name. *)
Lemma retrieveCountryIndex_least props (name : string) (i : nat) c :
  countries props !! i = Some c → Country.countryName c = name →
  ∃ j c', retrieveCountryIndex props name = Z.of_nat j
          ∧ (j ≤ i)%nat
          ∧ countries props !! j = Some c'
          ∧ Country.countryName c' = name
          ∧ ∀ k c'', countries props !! k = Some c'' → (k < j)%nat →
                     Country.countryName c'' ≠ name.
Proof.
  intros Hi Hname. unfold retrieveCountryIndex.
  destruct (JSFacts.findIndex_first
              (λ element, String.eqb (Country.countryName element) name)
              (countries props) c) as (j & c' & Hj & Hc' & Heq & Hbefore).
  { by eapply list_elem_of_lookup_2. }
  { by apply String.eqb_eq. }
  exists j, c'. split_and!; [done| |done|by apply String.eqb_eq|].
  - destruct (decide (j ≤ i)%nat) as [|Hgt]; [done|].
    assert (String.eqb (Country.countryName c) name = false) as Hno
      by (apply (Hbefore i c Hi); lia).
    apply String.eqb_neq in Hno. done.
  - intros k c'' Hk Hlt. apply String.eqb_neq. by apply (Hbefore k c'').
Qed.

(** X1.  Looking a country up by its own name gives back its position,
    when the names of the registry are pairwise distinct. *)
Theorem retrieveCountryIndex_round_trip props (i : nat) c :
  NoDup (Country.countryName <$> countries props) →
  countries props !! i = Some c →
  retrieveCountryIndex props (Country.countryName c) = Z.of_nat i
  ∧ JS.index (countries props)
             (retrieveCountryIndex props (Country.countryName c)) = Some c.
Proof.
  intros Hnodup Hi.
  destruct (retrieveCountryIndex_least props _ i c Hi eq_refl)
    as (j & c' & Hj & _ & Hc' & Heq & _).
  assert (j = i) as -> by (by eapply unique_name_position).
  rewrite Hj. split; [done|]. by rewrite JSFacts.index_of_nat.
Qed.

(** X2.  When two countries carry the same name, looking the later one
    up by its name gives the position of the earlier one: the lookup
    never answers the later position. *)
Theorem retrieveCountryIndex_duplicate_name props (i j : nat) c c' :
  countries props !! i = Some c → countries props !! j = Some c' →
  (i < j)%nat → Country.countryName c = Country.countryName c' →
  ∃ k, retrieveCountryIndex props (Country.countryName c') = Z.of_nat k
       ∧ (k ≤ i)%nat
       ∧ retrieveCountryIndex props (Country.countryName c') ≠ Z.of_nat j.
Proof.
  intros Hi Hj Hlt Heq.
  destruct (retrieveCountryIndex_least props _ i c Hi Heq)
    as (k & c'' & Hk & Hle & _).
  exists k. rewrite Hk. split_and!; [done|done|lia].
Qed.

(** X3.  [retrieveCountryIndex] answers [-1] exactly for the names no
    country carries, and otherwise a position of the registry. *)
Theorem retrieveCountryIndex_range props (name : string) :
  (retrieveCountryIndex props name = -1
   ↔ name ∉ (Country.countryName <$> countries props))
  ∧ -1 ≤ retrieveCountryIndex props name < Z.of_nat (length (countries props)).
Proof.
  destruct (decide (name ∈ (Country.countryName <$> countries props)))
    as [Hin|Hout].
  - apply list_elem_of_fmap in Hin as (c & -> & Hc).
    apply list_elem_of_lookup in Hc as [i Hi].
    destruct (retrieveCountryIndex_least props _ i c Hi eq_refl)
      as (j & c' & Hj & _ & Hc' & _).
    apply lookup_lt_Some in Hc'. rewrite Hj. split; [|lia].
    split; [lia|]. intros Hout. destruct Hout.
    apply list_elem_of_fmap. exists c. split; [done|].
    by eapply list_elem_of_lookup_2.
  - rewrite (retrieveCountryIndex_absent props name Hout). split; [done|lia].
Qed.

End Lookup.

Section SearchProperties.

Variable toLowerCase : string → string.

#[local] Existing Instance ci_starts_with_dec.

Implicit Types (props : PhoneFieldProps) (c : Country.t).

Lemma retrieveCountries_empty props :
  toLowerCase "" = "" →
  retrieveCountries toLowerCase props "" = searchItem <$> countries props.
Proof.
  intros Hempty. rewrite retrieveCountries_filter. f_equal.
  induction (countries props) as [|c l IH]; [done|].
  rewrite filter_cons_True, IH; [done|].
  exists (toLowerCase (Country.countryName c)). by rewrite Hempty.
Qed.

(** The two label formats never produce the same text: they differ in
    length by the one extra space of line 60. *)
Lemma label_formats_differ c : allCountriesContent c ≠ content (searchItem c).
Proof.
  intros Heq. apply (f_equal String.length) in Heq.
  unfold allCountriesContent in Heq. simpl in Heq.
  rewrite !StringFacts.append_length in Heq. simpl in Heq. lia.
Qed.

(** X4.  The list stored when the popover is toggled and the list
    stored for the empty search stand for the same countries at the
    same positions, but never show the same label: the first is built
    with two spaces after the image, the second with one. *)
Theorem empty_search_labels_differ_from_full_list props (k : nat) c :
  toLowerCase "" = "" →
  countries props !! k = Some c →
  ∃ full found,
    allCountries props !! k = Some full
    ∧ retrieveCountries toLowerCase props "" !! k = Some found
    ∧ candidateName props full = Some (Country.countryName c)
    ∧ candidateName props found = Some (Country.countryName c)
    ∧ content full ≠ content found.
Proof.
  intros Hempty Hk. rewrite (retrieveCountries_empty props Hempty).
  unfold allCountries. rewrite list_lookup_imap, list_lookup_fmap, Hk. simpl.
  eexists _, _. split_and!; try done.
  - unfold candidateName. simpl. by rewrite Hk.
  - apply label_formats_differ.
Qed.

(** X5.  Searching for the full name of a country of the registry
    always lists that country. *)
Theorem search_own_name_lists_country props c :
  c ∈ countries props →
  searchItem c ∈ retrieveCountries toLowerCase props (Country.countryName c).
Proof.
  intros Hc. rewrite retrieveCountries_filter.
  apply list_elem_of_fmap_2, list_elem_of_filter. split; [|done].
  exists "". by rewrite StringFacts.append_nil_r.
Qed.

(** X6.  Extending the query adds no candidate whenever the
    lower-cased extended query starts with the lower-cased query: the
    candidates of [q +:+ r] are then a sublist of the candidates of
    [q].  The condition is on the two queries at hand only, and where
    the lower-casing of [q] changes with what follows it the
    conclusion is not claimed. *)
Theorem longer_query_narrows_candidates props (q r : string) :
  JS.startsWith (toLowerCase (q +:+ r)) (toLowerCase q) = true →
  retrieveCountries toLowerCase props (q +:+ r)
    `sublist_of` retrieveCountries toLowerCase props q.
Proof.
  intros [tail Htail]%JSFacts.startsWith_spec.
  rewrite !retrieveCountries_filter.
  apply fmap_sublist.
  rewrite <- (list_filter_filter_l
                (λ c, ci_starts_with toLowerCase (Country.countryName c) (q +:+ r))
                (λ c, ci_starts_with toLowerCase (Country.countryName c) q)).
  - apply sublist_filter.
  - intros c [rest Hrest]. exists (tail +:+ rest).
    by rewrite Hrest, Htail, StringFacts.append_assoc.
Qed.

(** X7.  The number of candidates never exceeds the registry, and every
    candidate of a search carries the name of a country of the registry
    that the query matches. *)
Theorem search_candidates_come_from_registry props (q : string) :
  (length (retrieveCountries toLowerCase props q) ≤ length (countries props))%nat
  ∧ ∀ it, it ∈ retrieveCountries toLowerCase props q →
          ∃ c, c ∈ countries props
               ∧ it = searchItem c
               ∧ matchesSearch toLowerCase q c = true
               ∧ 0 ≤ retrieveCountryIndex props (Country.countryName c)
                 < Z.of_nat (length (countries props)).
Proof.
  rewrite retrieveCountries_filter. split.
  - rewrite length_fmap. apply length_filter.
  - intros it Hit. apply list_elem_of_fmap in Hit as (c & -> & Hc).
    apply list_elem_of_filter in Hc as [Hmatch Hc].
    destruct (retrieveCountryIndex_present props c Hc) as (i & c' & Hi & Hc' & _).
    apply lookup_lt_Some in Hc'.
    exists c. split_and!; [done|done|by apply matchesSearch_spec|lia|lia].
Qed.

End SearchProperties.

(** ** Further properties of the transitions *)

Section Behaviour.

Variable toLowerCase : string → string.

Implicit Types (props : PhoneFieldProps) (s : State) (c : Country.t).

Lemma render_is_Some props s :
  is_Some (render props s)
  ↔ is_Some (JS.index (countries props) (selectedCountry s)).
Proof.
  unfold render. destruct (JS.index _ _) as [c|]; simpl.
  - split; intros _; by eexists.
  - split; intros [? ?]; done.
Qed.

(** Every stored entry stands for a country of the registry and, when
    activated, stores a position that holds a country of that name. *)
Lemma entry_of_options props s (k : nat) (it : Item) :
  options_from_registry toLowerCase props s →
  countryOptions s !! k = Some it →
  ∃ i c, countries props !! i = Some c
         ∧ candidateName props it = Some (Country.countryName c)
         ∧ ∀ s0, selectedCountry (commit s0 (runAction props (onAction it)))
                 = Z.of_nat i.
Proof.
  intros [Hall|[search Hsearch]] Hk.
  - rewrite Hall in Hk. unfold allCountries in Hk.
    apply list_lookup_imap_Some in Hk as (c & Hc & ->).
    exists k, c. split_and!; [done| |done].
    unfold candidateName. simpl. by rewrite Hc.
  - rewrite Hsearch, retrieveCountries_filter in Hk.
    apply list_lookup_fmap_Some in Hk as (c & -> & Hc).
    apply list_elem_of_lookup_2, list_elem_of_filter in Hc as [_ Hc].
    destruct (retrieveCountryIndex_present props c Hc) as (i & c' & Hi & Hc' & Heq).
    exists i, c'. split_and!; [done| |].
    + simpl. by rewrite Heq.
    + intros s0. simpl. done.
Qed.

Lemma step_selected_valid props s s' (ev : Event) :
  options_from_registry toLowerCase props s →
  is_Some (JS.index (countries props) (selectedCountry s)) →
  step toLowerCase props s ev = Some s' →
  is_Some (JS.index (countries props) (selectedCountry s')).
Proof.
  intros Hopts Hvalid Hstep. apply step_Some in Hstep. destruct ev.
  - subst. exact Hvalid.
  - destruct Hstep as (c & _ & ->). exact Hvalid.
  - destruct Hstep as [_ ->]. exact Hvalid.
  - subst. exact Hvalid.
  - destruct Hstep as [_ ->]. exact Hvalid.
  - destruct Hstep as (_ & it & Hk & ->).
    destruct (entry_of_options props s k it Hopts Hk) as (i & c & Hc & _ & Hsel).
    rewrite Hsel, JSFacts.index_of_nat, Hc. by eexists.
Qed.

(** X8.  The control mounted on a non-empty registry never loses its
    active country: in every state reached from the mount,
    [selectedCountry] is a position of the registry and the render
    succeeds. *)
Theorem reachable_states_render props (evs : list Event) s :
  countries props ≠ [] →
  run toLowerCase props (mount props) evs = Some s →
  0 ≤ selectedCountry s < Z.of_nat (length (countries props))
  ∧ is_Some (render props s).
Proof.
  intros Hne Hrun.
  assert (options_from_registry toLowerCase props s
          ∧ is_Some (JS.index (countries props) (selectedCountry s)))
    as [_ [c Hc]].
  { revert Hrun.
    apply (run_invariant toLowerCase props
             (λ s, options_from_registry toLowerCase props s
                   ∧ is_Some (JS.index (countries props) (selectedCountry s)))).
    - intros s0 ev s1 [Hopts Hvalid] Hstep. split.
      + by eapply step_options_from_registry.
      + by eapply step_selected_valid.
    - split; [by left|]. simpl.
      destruct (countries props) as [|c0 l]; [done|]. by eexists. }
  split.
  - apply JSFacts.index_Some in Hc as [Hpos Hc].
    apply lookup_lt_Some in Hc. lia.
  - apply render_is_Some. by eexists.
Qed.

(** X9.  The mounted control renders exactly when the registry is not
    empty; mounted on an empty registry it takes no event at all. *)
Theorem empty_registry_never_renders props :
  (is_Some (render props (mount props)) ↔ countries props ≠ [])
  ∧ (countries props = [] →
     ∀ ev, step toLowerCase props (mount props) ev = None).
Proof.
  split.
  - rewrite render_is_Some. simpl.
    destruct (countries props) as [|c l]; simpl.
    + split; [intros [? ?]; done|done].
    + split; [done|intros _; by eexists].
  - intros Hnil ev. unfold step, handler, render. simpl. by rewrite Hnil.
Qed.


(** X11.  The last query wins: two search changes in a row leave the
    state that the second one alone leaves. *)
Theorem last_search_wins props s (q1 q2 : string) :
  run toLowerCase props s [SearchChange q1; SearchChange q2]
  = run toLowerCase props s [SearchChange q2].
Proof.
  simpl. unfold step, handler, render. simpl.
  destruct (JS.index (countries props) (selectedCountry s)) as [c|] eqn:Hc;
    simpl; [|done].
  destruct (popoverActive s) eqn:Hopen; simpl; [|done].
  rewrite Hc. simpl. rewrite Hopen. done.
Qed.

(** X12.  The list on display always belongs to the search text on
    display: in every state reached from the mount, either the text is
    empty and the list is the full one, or the list is the result of
    searching for the text. *)
Theorem list_matches_search_text props (evs : list Event) s :
  run toLowerCase props (mount props) evs = Some s →
  (searchBarText s = "" ∧ countryOptions s = allCountries props)
  ∨ countryOptions s = retrieveCountries toLowerCase props (searchBarText s).
Proof.
  apply (run_invariant toLowerCase props
           (λ s, (searchBarText s = "" ∧ countryOptions s = allCountries props)
                 ∨ countryOptions s
                   = retrieveCountries toLowerCase props (searchBarText s))).
  - intros s0 ev s1 Hinv Hstep. apply step_Some in Hstep. destruct ev.
    + subst. exact Hinv.
    + destruct Hstep as (c & _ & ->). exact Hinv.
    + destruct Hstep as [_ ->]. by left.
    + subst. by left.
    + destruct Hstep as [_ ->]. by right.
    + destruct Hstep as (_ & it & _ & ->). left. by destruct (onAction it).
  - by left.
Qed.

(** X13.  In every state reached from the mount the option list is no
    longer than the registry and each of its entries stands for a
    country of the registry. *)
Theorem candidates_come_from_registry props (evs : list Event) s :
  run toLowerCase props (mount props) evs = Some s →
  (length (countryOptions s) ≤ length (countries props))%nat
  ∧ ∀ it, it ∈ countryOptions s →
          ∃ c, c ∈ countries props
               ∧ candidateName props it = Some (Country.countryName c).
Proof.
  intros Hrun. pose proof (run_options_from_registry _ _ _ _ Hrun) as Hopts.
  split.
  - destruct Hopts as [->|[search ->]].
    + unfold allCountries. by rewrite length_imap.
    + rewrite retrieveCountries_filter, length_fmap. apply length_filter.
  - intros it Hit. apply list_elem_of_lookup in Hit as [k Hk].
    destruct (entry_of_options props s k it Hopts Hk) as (i & c & Hc & Hname & _).
    exists c. split; [by eapply list_elem_of_lookup_2|done].
Qed.

(** X14.  Leaving the field twice without typing in between settles the
    outcome of the formatting: the display value is the formatter's
    answer, and the error is [null] exactly when that answer is a
    non-empty string. *)
Theorem blur_twice_settles props s c :
  JS.index (countries props) (selectedCountry s) = Some c →
  ∃ s', run toLowerCase props s [PhoneBlur; PhoneBlur] = Some s'
        ∧ formattedPhoneNumber s' = Country.formatter c (phoneNumber s)
        ∧ error s' = (if JS.truthy (Country.formatter c (phoneNumber s))
                      then None else Some (errorMessage props))
        ∧ phoneNumber s' = phoneNumber s
        ∧ selectedCountry s' = selectedCountry s.
Proof.
  intros Hc. simpl. unfold step, handler, render. rewrite Hc. simpl.
  unfold onBlur, handleFormat. rewrite Hc. simpl.
  unfold render. simpl. rewrite Hc. simpl. eauto 10.
Qed.

(** X18.  What a blur computes: the display value becomes the answer
    of the active country's formatter on the raw text, while the error
    follows the display value held before the blur: it is [null]
    exactly when that earlier value was a non-empty string, and the
    configured error text otherwise. *)
Theorem blur_error_follows_previous_display props s s' :
  step toLowerCase props s PhoneBlur = Some s' →
  ∃ c, JS.index (countries props) (selectedCountry s) = Some c
       ∧ formattedPhoneNumber s' = Country.formatter c (phoneNumber s)
       ∧ (error s' = None ↔ JS.truthy (formattedPhoneNumber s) = true)
       ∧ (error s' ≠ None → error s' = Some (errorMessage props)).
Proof.
  intros Hstep. apply step_Some in Hstep as (c & Hc & ->).
  exists c. simpl. split_and!; try done;
    destruct (JS.truthy (formattedPhoneNumber s)); done.
Qed.

(** X15.  Each event changes only its own cells: the raw text changes
    only on a change of the phone field, the display value and the
    error only on its blur, the selected country only on the activation
    of an entry, and the popover flag, the search text and the option
    list never on a change or blur of the phone field. *)
Theorem events_change_only_their_cells props s s' (ev : Event) :
  step toLowerCase props s ev = Some s' →
  (phoneNumber s' ≠ phoneNumber s → ∃ x, ev = PhoneChange x)
  ∧ (formattedPhoneNumber s' ≠ formattedPhoneNumber s → ev = PhoneBlur)
  ∧ (error s' ≠ error s → ev = PhoneBlur)
  ∧ (selectedCountry s' ≠ selectedCountry s → ∃ k, ev = ItemAction k)
  ∧ ((∃ x, ev = PhoneChange x) ∨ ev = PhoneBlur →
     popoverActive s' = popoverActive s
     ∧ searchBarText s' = searchBarText s
     ∧ countryOptions s' = countryOptions s).
Proof.
  intros Hstep. apply step_Some in Hstep. destruct ev.
  - subst. simpl. split_and!; try done. by eexists.
  - destruct Hstep as (c & _ & ->). simpl. split_and!; try done.
  - destruct Hstep as [_ ->]. simpl. split_and!; try done.
    intros [[x ?]|?]; done.
  - subst. simpl. split_and!; try done.
    intros [[x ?]|?]; done.
  - destruct Hstep as [_ ->]. simpl. split_and!; try done.
    intros [[x ?]|?]; done.
  - destruct Hstep as (_ & it & _ & ->).
    destruct (onAction it); simpl; (split_and!; try done; [by eexists|]);
      intros [[x ?]|?]; done.
Qed.

(** X16.  Once the display value is a non-empty string, typing does not
    change what the field shows: the view keeps showing the display
    value until the next blur. *)
Theorem typing_after_format_keeps_display props s s' (x : string) :
  JS.truthy (formattedPhoneNumber s) = true →
  step toLowerCase props s (PhoneChange x) = Some s' →
  phoneNumber s' = x
  ∧ ∃ v v', render props s = Some v
            ∧ render props s' = Some v'
            ∧ value v' = value v
            ∧ Some (value v') = formattedPhoneNumber s.
Proof.
  intros Htruthy Hstep. unfold step, handler in Hstep.
  destruct (render props s) as [v|] eqn:Hrender; [|done].
  simpl in Hstep. injection Hstep as <-. split; [done|].
  exists v. unfold render in *. simpl.
  destruct (JS.index (countries props) (selectedCountry s)) as [c|]; [|done].
  simpl in *. injection Hrender as <-. eexists. split_and!; try done;
    simpl; by destruct (formattedPhoneNumber s) as [[|a f]|].
Qed.

(** X17.  Names being unique, after the activation of the entry at
    position [k] the selected country is the country the entry stands
    for (the one at position [k] of the registry for the full list, of
    the filtered registry for a search result), the render succeeds,
    and the button shows that country: its name and code with a click
    handler when the registry has several countries, its bare name
    without one otherwise.  The popover is rendered inactive. *)
Theorem select_updates_button props (evs : list Event) s s' (k : nat) :
  NoDup (Country.countryName <$> countries props) →
  run toLowerCase props (mount props) evs = Some s →
  step toLowerCase props s (ItemAction k) = Some s' →
  ∃ (it : Item) c v,
    countryOptions s !! k = Some it
    ∧ ((countryOptions s = allCountries props
        ∧ countries props !! k = Some c
        ∧ content it = allCountriesContent c)
       ∨ (countryOptions s
          = retrieveCountries toLowerCase props (searchBarText s)
          ∧ List.filter (matchesSearch toLowerCase (searchBarText s))
                        (countries props) !! k = Some c
          ∧ content it = content (searchItem c)))
    ∧ JS.index (countries props) (selectedCountry s') = Some c
    ∧ render props s' = Some v
    ∧ buttonChildren v
      = (if bool_decide (1 < length (countries props))%nat
         then Country.countryName c +:+ " (" +:+ Country.countryCode c +:+ ")"
         else Country.countryName c)
    ∧ buttonOnClick v = bool_decide (1 < length (countries props))%nat
    ∧ active v = false.
Proof.
  intros Hnodup Hrun Hstep.
  apply step_Some in Hstep as (Hopen & it & Hk & ->).
  destruct (entry_country toLowerCase props evs s k it Hnodup Hrun Hk)
    as (c & i & Hshown & _ & Hi & Hsel).
  exists it, c. unfold render. rewrite Hsel, JSFacts.index_of_nat, Hi. simpl.
  eexists. split_and!; try done.
  simpl. by rewrite runAction_toggles, Hopen.
Qed.

End Behaviour.

(** ** The further properties on concrete registries *)

Module Runs.

Import Sample.

(** Cameroon, at position 1, is found again by its name. *)
Lemma retrieveCountryIndex_round_trip_run :
  retrieveCountryIndex two "Cameroon" = 1
  ∧ JS.index (countries two) (retrieveCountryIndex two "Cameroon")
    = Some cameroon.
Proof.
  apply (retrieveCountryIndex_round_trip two 1%nat cameroon).
  - apply (bool_decide_unpack _). vm_compute. exact I.
  - reflexivity.
Defined.

(** With the USA listed at positions 0 and 2, the name of the entry at
    position 2 resolves to position 0. *)
Lemma retrieveCountryIndex_duplicate_name_run :
  ∃ k, retrieveCountryIndex (props [usa; canada; usa]) "USA" = Z.of_nat k
       ∧ (k ≤ 0)%nat
       ∧ retrieveCountryIndex (props [usa; canada; usa]) "USA" ≠ Z.of_nat 2.
Proof.
  apply (retrieveCountryIndex_duplicate_name
           (props [usa; canada; usa]) 0%nat 2%nat usa usa).
  - reflexivity.
  - reflexivity.
  - lia.
  - reflexivity.
Defined.

Lemma empty_search_labels_differ_from_full_list_run :
  ∃ full found,
    allCountries two !! 1%nat = Some full
    ∧ retrieveCountries lower two "" !! 1%nat = Some found
    ∧ candidateName two full = Some "Cameroon"
    ∧ candidateName two found = Some "Cameroon"
    ∧ content full ≠ content found.
Proof.
  apply (empty_search_labels_differ_from_full_list lower two 1%nat cameroon).
  - reflexivity.
  - reflexivity.
Defined.

Lemma search_own_name_lists_country_run :
  searchItem cameroon ∈ retrieveCountries lower two "Cameroon".
Proof.
  apply (search_own_name_lists_country lower two cameroon).
  apply (list_elem_of_lookup_2 _ 1%nat). reflexivity.
Defined.

Lemma longer_query_narrows_candidates_run :
  retrieveCountries lower two ("Ca" +:+ "m")
    `sublist_of` retrieveCountries lower two "Ca".
Proof.
  apply (longer_query_narrows_candidates lower two "Ca" "m").
  reflexivity.
Defined.

Lemma reachable_states_render_run :
  let s := commit (commit (mount two) (handleSearchBar lower two "Cam"))
                  (runAction two (SelectNamed "Cameroon")) in
  0 ≤ selectedCountry s < Z.of_nat (length (countries two))
  ∧ is_Some (render two s).
Proof.
  intros s.
  apply (reachable_states_render lower two
           [SearchChange "Cam"; ItemAction 0%nat] s).
  - discriminate.
  - reflexivity.
Defined.

Lemma empty_registry_never_renders_run :
  step lower (props []) (mount (props [])) (PhoneChange "5") = None
  ∧ step lower (props []) (mount (props [])) ActivatorClick = None.
Proof.
  split;
    apply (proj2 (empty_registry_never_renders lower (props []))); reflexivity.
Defined.


Lemma list_matches_search_text_run :
  let s := commit (mount two) (handleSearchBar lower two "Cam") in
  (searchBarText s = "" ∧ countryOptions s = allCountries two)
  ∨ countryOptions s = retrieveCountries lower two (searchBarText s).
Proof.
  intros s.
  apply (list_matches_search_text lower two [SearchChange "Cam"] s).
  reflexivity.
Defined.

Lemma candidates_come_from_registry_run :
  let s := commit (mount two) (handleSearchBar lower two "Cam") in
  (length (countryOptions s) ≤ length (countries two))%nat
  ∧ ∀ it, it ∈ countryOptions s →
          ∃ c, c ∈ countries two
               ∧ candidateName two it = Some (Country.countryName c).
Proof.
  intros s.
  apply (candidates_come_from_registry lower two [SearchChange "Cam"] s).
  reflexivity.
Defined.

Lemma blur_twice_settles_run :
  let s := commit (mount two) [setPhoneNumber "5551234567"] in
  ∃ s', run lower two s [PhoneBlur; PhoneBlur] = Some s'
        ∧ formattedPhoneNumber s' = Country.formatter canada (phoneNumber s)
        ∧ error s' = (if JS.truthy (Country.formatter canada (phoneNumber s))
                      then None else Some (errorMessage two))
        ∧ phoneNumber s' = phoneNumber s
        ∧ selectedCountry s' = selectedCountry s.
Proof.
  intros s. apply (blur_twice_settles lower two s canada). reflexivity.
Defined.

Lemma events_change_only_their_cells_run :
  let s := mount two in
  let s' := commit s [setPhoneNumber "555"] in
  (phoneNumber s' ≠ phoneNumber s → ∃ x, PhoneChange "555" = PhoneChange x)
  ∧ (formattedPhoneNumber s' ≠ formattedPhoneNumber s
     → PhoneChange "555" = PhoneBlur)
  ∧ (error s' ≠ error s → PhoneChange "555" = PhoneBlur)
  ∧ (selectedCountry s' ≠ selectedCountry s
     → ∃ k, PhoneChange "555" = ItemAction k)
  ∧ ((∃ x, PhoneChange "555" = PhoneChange x) ∨ PhoneChange "555" = PhoneBlur →
     popoverActive s' = popoverActive s
     ∧ searchBarText s' = searchBarText s
     ∧ countryOptions s' = countryOptions s).
Proof.
  intros s s'.
  apply (events_change_only_their_cells lower two s s' (PhoneChange "555")).
  reflexivity.
Defined.

Lemma typing_after_format_keeps_display_run :
  let s := commit (mount two)
                  [ setPhoneNumber "5551234567";
                    setFormattedPhoneNumber (Some "(xxx) xxx-xxxx") ] in
  let s' := commit s [setPhoneNumber "5551234567890"] in
  phoneNumber s' = "5551234567890"
  ∧ ∃ v v', render two s = Some v
            ∧ render two s' = Some v'
            ∧ value v' = value v
            ∧ Some (value v') = formattedPhoneNumber s.
Proof.
  intros s s'.
  apply (typing_after_format_keeps_display lower two s s' "5551234567890");
    reflexivity.
Defined.

Lemma select_updates_button_run :
  let s := commit (mount two) (handleSearchBar lower two "Cam") in
  let s' := commit s (runAction two (SelectNamed "Cameroon")) in
  ∃ (it : Item) c v,
    countryOptions s !! 0%nat = Some it
    ∧ ((countryOptions s = allCountries two
        ∧ countries two !! 0%nat = Some c
        ∧ content it = allCountriesContent c)
       ∨ (countryOptions s = retrieveCountries lower two (searchBarText s)
          ∧ List.filter (matchesSearch lower (searchBarText s))
                        (countries two) !! 0%nat = Some c
          ∧ content it = content (searchItem c)))
    ∧ JS.index (countries two) (selectedCountry s') = Some c
    ∧ render two s' = Some v
    ∧ buttonChildren v
      = (if bool_decide (1 < length (countries two))%nat
         then Country.countryName c +:+ " (" +:+ Country.countryCode c +:+ ")"
         else Country.countryName c)
    ∧ buttonOnClick v = bool_decide (1 < length (countries two))%nat
    ∧ active v = false.
Proof.
  intros s s'.
  apply (select_updates_button lower two [SearchChange "Cam"] s s' 0%nat).
  - apply (bool_decide_unpack _). vm_compute. exact I.
  - reflexivity.
  - reflexivity.
Defined.

Lemma blur_error_follows_previous_display_run :
  let s := commit (mount two) [setPhoneNumber "5551234567"] in
  let s' := commit s [ setFormattedPhoneNumber (Some "(xxx) xxx-xxxx");
                       setError (Some "Invalid phone number") ] in
  ∃ c, JS.index (countries two) (selectedCountry s) = Some c
       ∧ formattedPhoneNumber s' = Country.formatter c (phoneNumber s)
       ∧ (error s' = None ↔ JS.truthy (formattedPhoneNumber s) = true)
       ∧ (error s' ≠ None → error s' = Some (errorMessage two)).
Proof.
  intros s s'.
  apply (blur_error_follows_previous_display lower two s s'). reflexivity.
Defined.

End Runs.
